(** * The marquee loop builder of [src/marquee.js]

    A shallow embedding of [setupMarqueeAnimation] and [horizontalLoop],
    followed by the properties the specification states about the loop
    builder.

    The builder is embedded twice, from the same source text.

    - First with exact arithmetic: numbers are rationals extended with
      [Infinity], [-Infinity] and [NaN], so that division by zero, [NaN]
      propagation, truthiness and [===] behave as in the language, while
      nothing is rounded and nothing overflows. Properties that do not
      depend on rounding (which tweens are scheduled, what each option
      reaches, what is raised, where [NaN] appears) are proved on it, and so
      are the laws that hold of the builder's expressions before rounding.
    - Then, in [Binary64], with the binary64 doubles JavaScript computes
      with. Wherever an equality or a strict inequality of computed numbers
      is at stake, it is this one that says what the code does. *)

From Stdlib Require Import Arith QArith Qfield Lqa Lia List Bool.
From Stdlib Require Import PrimFloat.
From Stdlib Require String.
Import ListNotations String.StringSyntax.

Local Open Scope string_scope.
Local Open Scope list_scope.

Local Open Scope Q_scope.

(** ** Numbers *)

Inductive number : Type :=
| Fin (q : Q)
| PosInf
| NegInf
| NaN.

Definition isFinite (n : number) : bool :=
  match n with Fin _ => true | _ => false end.

Definition nneg (a : number) : number :=
  match a with
  | Fin q => Fin (- q)
  | PosInf => NegInf
  | NegInf => PosInf
  | NaN => NaN
  end.

(** [a + b] *)
Definition nadd (a b : number) : number :=
  match a, b with
  | NaN, _ | _, NaN => NaN
  | Fin p, Fin q => Fin (p + q)
  | PosInf, NegInf | NegInf, PosInf => NaN
  | PosInf, _ | _, PosInf => PosInf
  | NegInf, _ | _, NegInf => NegInf
  end.

(** [a - b] *)
Definition nsub (a b : number) : number := nadd a (nneg b).

(** An infinity of the sign of [q] times the sign of [inf]; [NaN] at zero. *)
Definition inf_times (inf : number) (q : Q) : number :=
  match q ?= 0 with
  | Eq => NaN
  | Gt => inf
  | Lt => nneg inf
  end.

(** [a * b] *)
Definition nmul (a b : number) : number :=
  match a, b with
  | NaN, _ | _, NaN => NaN
  | Fin p, Fin q => Fin (p * q)
  | Fin p, inf => inf_times inf p
  | inf, Fin q => inf_times inf q
  | PosInf, PosInf | NegInf, NegInf => PosInf
  | PosInf, NegInf | NegInf, PosInf => NegInf
  end.

(** [a / b]; a finite zero divisor counts as [+0]. *)
Definition ndiv (a b : number) : number :=
  match a, b with
  | NaN, _ | _, NaN => NaN
  | Fin p, Fin q =>
      if Qeq_bool q 0 then inf_times PosInf p else Fin (p / q)
  | Fin _, _ => Fin 0
  | inf, Fin q => match q ?= 0 with Lt => nneg inf | _ => inf end
  | _, _ => NaN
  end.

(** [a === b] on numbers: [NaN] equals nothing. *)
Definition strict_eq (a b : number) : bool :=
  match a, b with
  | Fin p, Fin q => Qeq_bool p q
  | PosInf, PosInf | NegInf, NegInf => true
  | _, _ => false
  end.

(** [a < b] on numbers: false as soon as one side is [NaN]. *)
Definition less_than (a b : number) : bool :=
  match a, b with
  | NaN, _ | _, NaN => false
  | Fin p, Fin q => match p ?= q with Lt => true | _ => false end
  | NegInf, NegInf | PosInf, _ | _, NegInf => false
  | NegInf, _ | _, PosInf => true
  end.

(** ToBoolean on a number: [0] and [NaN] are falsy. *)
Definition truthy (a : number) : bool :=
  match a with
  | Fin q => negb (Qeq_bool q 0)
  | NaN => false
  | _ => true
  end.

(** A property that may be absent from an object: [None] is [undefined]. *)
Definition optional (A : Type) : Type := option A.

(** [a || d] on numbers. *)
Definition or_num (a d : number) : number :=
  if truthy a then a else d.

(** [v || d] where [v] is a number or [undefined]. *)
Definition or_else (v : optional number) (d : number) : number :=
  match v with
  | Some n => or_num n d
  | None => d
  end.

(** [v ?? d]: only [undefined] (and [null]) give way to the default. *)
Definition nullish (v : optional number) (d : number) : number :=
  match v with
  | Some n => n
  | None => d
  end.

(** [parseFloat(v)] for a number or [undefined]: a number is printed and
    read back, [undefined] reads as [NaN]. *)
Definition parseFloat (v : optional number) : number :=
  match v with
  | Some n => n
  | None => NaN
  end.

Coercion Fin : Q >-> number.


(** ** Elements, configuration, timeline *)

(** What the builder reads from a DOM element: the two layout properties and
    the four properties it asks GSAP for. *)
Record Element : Type := mkElement {
  offsetLeft : number;
  offsetWidth : number;
  css_width : number;
  css_x : number;
  css_xPercent : number;
  css_scaleX : number
}.

(** [gsap.getProperty(el, property)]. With the unit ["px"] GSAP appends the
    unit to the number and [parseFloat] reads the number back. *)
Definition getProperty (el : Element) (property : String.string) : number :=
  if String.eqb property "width" then css_width el
  else if String.eqb property "x" then css_x el
  else if String.eqb property "xPercent" then css_xPercent el
  else if String.eqb property "scaleX" then css_scaleX el
  else NaN.

Definition set_xPercent (v : number) (el : Element) : Element :=
  mkElement (offsetLeft el) (offsetWidth el) (css_width el) (css_x el) v
            (css_scaleX el).

Definition set_x (v : number) (el : Element) : Element :=
  mkElement (offsetLeft el) (offsetWidth el) (css_width el) v
            (css_xPercent el) (css_scaleX el).

(** The options object of [horizontalLoop]. *)
Record LoopConfig : Type := mkLoopConfig {
  repeat : optional number;
  paddingRight : optional number;
  speed : optional number
}.

Definition empty_config : LoopConfig := mkLoopConfig None None None.

(** [config || {}]: an object is truthy, [undefined] is not. *)
Definition config_of (config : optional LoopConfig) : LoopConfig :=
  match config with Some c => c | None => empty_config end.

(** The options object of [setupMarqueeAnimation]. *)
Record MarqueeConfig : Type := mkMarqueeConfig {
  selector : optional String.string;
  m_repeat : optional number;
  m_paddingRight : optional number;
  m_speed : optional number
}.

(** One segment placed on the timeline by [to] or [fromTo]; [target] is the
    index of the animated item in [items]. [from_xPercent] is absent for
    [to]. *)
Record Tween : Type := mkTween {
  target : nat;
  from_xPercent : optional number;
  to_xPercent : number;
  duration : number;
  immediateRender : optional bool;
  position : number
}.

(** What the builder has told the timeline: its options, the [to] and
    [fromTo] calls in the order they were made ([children]; the animation
    library keeps its own list, sorted by start time), and the playhead. *)
Record Timeline : Type := mkTimeline {
  tl_repeat : optional number;
  tl_ease : String.string;
  children : list Tween;
  tl_progress : number
}.

(** [gsap.timeline({ repeat, defaults: { ease } })] *)
Definition gsap_timeline (rep : optional number) (ease : String.string)
  : Timeline :=
  mkTimeline rep ease [] 0.

Definition add_child (tw : Tween) (tl : Timeline) : Timeline :=
  mkTimeline (tl_repeat tl) (tl_ease tl) (children tl ++ [tw])
             (tl_progress tl).

(** [tl.to(item, { xPercent, duration }, position)] *)
Definition tl_to (item : nat) (xPercent dur pos : number) (tl : Timeline)
  : Timeline :=
  add_child (mkTween item None xPercent dur None pos) tl.

(** [tl.fromTo(item, { xPercent: from }, { xPercent, duration,
    immediateRender }, position)] *)
Definition tl_fromTo (item : nat) (from xPercent dur : number)
    (immediate : bool) (pos : number) (tl : Timeline) : Timeline :=
  add_child (mkTween item (Some from) xPercent dur (Some immediate) pos) tl.

(** [tl.progress(value, suppressEvents)] moves the playhead. *)
Definition progress (value : number) (suppressEvents : bool) (tl : Timeline)
  : Timeline :=
  mkTimeline (tl_repeat tl) (tl_ease tl) (children tl) value.

(** ** Errors *)

(** The one exception the code can raise: reading a property of
    [undefined]. *)
Inductive error : Type := TypeError.

Inductive completion (A : Type) : Type :=
| Returned (a : A)
| Threw (e : error).

Arguments Returned {A} a.
Arguments Threw {A} e.

(** ** Arrays *)

(** [a[i] = v]: writing past the end extends the array; the holes left
    behind read as [undefined], which arithmetic turns into [NaN]. *)
Fixpoint array_set (i : nat) (v : number) (a : list number) : list number :=
  match i, a with
  | O, [] => [v]
  | O, _ :: t => v :: t
  | S j, [] => NaN :: array_set j v []
  | S j, h :: t => h :: array_set j v t
  end.

(** [a[i]] used as a number. *)
Definition array_get (a : list number) (i : nat) : number := nth i a NaN.

(** ** [horizontalLoop] *)

(** [xPercent: (i, el) => ...] of the first [gsap.set]: the callback fills
    [widths] and [xPercents] and its result becomes the element's
    [xPercent] (the library may round what it stores; the builder never
    reads it back). [i] is the index of the head of [els]. *)
Fixpoint measure (i : nat) (els : list Element) (widths xPercents : list number)
  : list number * list number * list Element :=
  match els with
  | [] => (widths, xPercents, [])
  | el :: rest =>
      let w := parseFloat (Some (getProperty el "width")) in
      let widths := array_set i w widths in
      let xp :=
        nadd (nmul (ndiv (parseFloat (Some (getProperty el "x"))) w) 100)
             (getProperty el "xPercent") in
      let xPercents := array_set i xp xPercents in
      let '(widths, xPercents, rest) := measure (S i) rest widths xPercents in
      (widths, xPercents, set_xPercent xp el :: rest)
  end.

Section Loop.

Variable items : list Element.
Variable first : Element.
Variables widths xPercents : list number.
Variables startX totalWidth pixelsPerSecond : number.

Definition item_at (i : nat) : Element := nth i items first.

Definition curX_at (i : nat) : number :=
  nmul (ndiv (array_get xPercents i) 100) (array_get widths i).

Definition distanceToStart_at (i : nat) : number :=
  nsub (nadd (offsetLeft (item_at i)) (curX_at i)) startX.

Definition distanceToLoop_at (i : nat) : number :=
  nadd (distanceToStart_at i)
       (nmul (array_get widths i) (getProperty (item_at i) "scaleX")).

(** The body of the [for] loop at index [i]. *)
Definition loop_body (tl : Timeline) (i : nat) : Timeline :=
  let curX := curX_at i in
  let distanceToLoop := distanceToLoop_at i in
  tl_fromTo i
    (nmul (ndiv (nadd (nsub curX distanceToLoop) totalWidth)
                (array_get widths i)) 100)
    (array_get xPercents i)
    (ndiv (nsub (nadd (nsub curX distanceToLoop) totalWidth) curX)
          pixelsPerSecond)
    false
    (ndiv distanceToLoop pixelsPerSecond)
    (tl_to i
       (nmul (ndiv (nsub curX distanceToLoop) (array_get widths i)) 100)
       (ndiv distanceToLoop pixelsPerSecond)
       0
       tl).

(** [for (i = 0; i < length; i++) { ... }] *)
Definition loop (length : nat) (tl : Timeline) : Timeline :=
  fold_left loop_body (seq 0 length) tl.

(** The two segments iteration [i] puts on the timeline: what [to] and
    [fromTo] receive in the loop body. *)
Definition exit_tween (i : nat) : Tween :=
  let curX := curX_at i in
  let distanceToLoop := distanceToLoop_at i in
  mkTween i None
    (nmul (ndiv (nsub curX distanceToLoop) (array_get widths i)) 100)
    (ndiv distanceToLoop pixelsPerSecond) None 0.

Definition reentry_tween (i : nat) : Tween :=
  let curX := curX_at i in
  let distanceToLoop := distanceToLoop_at i in
  mkTween i
    (Some (nmul (ndiv (nadd (nsub curX distanceToLoop) totalWidth)
                      (array_get widths i)) 100))
    (array_get xPercents i)
    (ndiv (nsub (nadd (nsub curX distanceToLoop) totalWidth) curX)
          pixelsPerSecond)
    (Some false)
    (ndiv distanceToLoop pixelsPerSecond).

End Loop.

(** [parseFloat(config.paddingRight) || 0] *)
Definition padding_of (config : LoopConfig) : number :=
  or_num (parseFloat (paddingRight config)) 0.

(** The value of [totalWidth]. *)
Definition totalWidth_of (items : list Element) (first : Element)
    (widths xPercents : list number) (startX : number) (length : nat)
    (config : LoopConfig) : number :=
  let lastItem := nth (length - 1) items first in
  nadd
    (nadd
       (nsub
          (nadd (offsetLeft lastItem)
                (nmul (ndiv (array_get xPercents (length - 1)) 100)
                      (array_get widths (length - 1))))
          startX)
       (nmul (offsetWidth lastItem) (getProperty lastItem "scaleX")))
    (padding_of config).

(** [(config.speed || 1) * 100] *)
Definition pixelsPerSecond_of (config : LoopConfig) : number :=
  nmul (or_else (speed config) 1) 100.

Definition horizontalLoop (items : list Element) (config : optional LoopConfig)
  : completion Timeline :=
  let config := config_of config in
  let tl := gsap_timeline (repeat config) "none" in
  let length := length items in
  match items with
  | [] => Threw TypeError
  | first :: _ =>
      let startX := offsetLeft first in
      let pixelsPerSecond := pixelsPerSecond_of config in
      let '(widths, xPercents, items) := measure 0 items [] [] in
      let items := map (set_x 0) items in
      let totalWidth :=
        totalWidth_of items first widths xPercents startX length config in
      let tl :=
        loop items first widths xPercents startX totalWidth pixelsPerSecond
             length tl in
      Returned (progress 0 true (progress 1 true tl))
  end.

(** ** [setupMarqueeAnimation] *)

(** The page: what [gsap.utils.toArray(selector)] returns. (A selector the
    browser rejects makes it throw before any of the code below runs.) *)
Definition Document : Type := String.string -> list Element.

(** [config.selector || ".marquee h1"]: the empty string is falsy. *)
Definition selector_of (config : MarqueeConfig) : String.string :=
  match selector config with
  | Some s => if String.eqb s "" then ".marquee h1" else s
  | None => ".marquee h1"
  end.

(** [config = {}]: the default replaces [undefined]. *)
Definition marquee_config_of (config : optional MarqueeConfig)
  : MarqueeConfig :=
  match config with
  | Some c => c
  | None => mkMarqueeConfig None None None None
  end.

(** The result is the timeline, or [undefined] when nothing matched. *)
Definition setupMarqueeAnimation (document : Document)
    (config : optional MarqueeConfig) : completion (optional Timeline) :=
  let config := marquee_config_of config in
  let marqueeItems := document (selector_of config) in
  if Nat.ltb 0 (length marqueeItems) then
    match
      horizontalLoop marqueeItems
        (Some (mkLoopConfig
                 (Some (nullish (m_repeat config) (-1)))
                 (Some (nullish (m_paddingRight config) 30))
                 (Some (nullish (m_speed config) 1))))
    with
    | Returned tl => Returned (Some tl)
    | Threw e => Threw e
    end
  else Returned None.

(** ** Reading the built timeline *)

(** The loop makes two calls per item, so the tweens of item [i] are the
    calls number [2 i] (exit) and [2 i + 1] (re-entry). *)
Definition exit_segment (tl : Timeline) (i : nat) : option Tween :=
  nth_error (children tl) (2 * i).

Definition reentry_segment (tl : Timeline) (i : nat) : option Tween :=
  nth_error (children tl) (2 * i + 1).

(** Exit duration plus re-entry duration of item [i]. *)
Definition cycle_duration (tl : Timeline) (i : nat) : option number :=
  match exit_segment tl i, reentry_segment tl i with
  | Some e, Some r => Some (nadd (duration e) (duration r))
  | _, _ => None
  end.

(** The local variables of [horizontalLoop], as functions of its
    arguments. *)

Definition widths_of (items : list Element) : list number :=
  fst (fst (measure 0 items [] [])).

Definition xPercents_of (items : list Element) : list number :=
  snd (fst (measure 0 items [] [])).

(** The elements after both [gsap.set] calls. *)
Definition items_after_set (items : list Element) : list Element :=
  map (set_x 0) (snd (measure 0 items [] [])).

(** Stands for [items[0]] where [items] is empty; never read, since
    [horizontalLoop] has thrown by then. *)
Definition no_element : Element := mkElement NaN NaN NaN NaN NaN NaN.

Definition totalWidth (items : list Element) (config : optional LoopConfig)
  : number :=
  totalWidth_of (items_after_set items) (hd no_element items)
    (widths_of items) (xPercents_of items)
    (offsetLeft (hd no_element items)) (length items)
    (config_of config).

Definition startX_of (items : list Element) : number :=
  offsetLeft (hd no_element items).

Definition curX (items : list Element) (i : nat) : number :=
  curX_at (widths_of items) (xPercents_of items) i.

Definition distanceToLoop (items : list Element) (i : nat) : number :=
  distanceToLoop_at (items_after_set items) (hd no_element items)
    (widths_of items) (xPercents_of items) (startX_of items) i.

Definition pixelsPerSecond (config : optional LoopConfig) : number :=
  pixelsPerSecond_of (config_of config).

(** The timeline [horizontalLoop] returns for a non-empty [items]. *)
Definition built (items : list Element) (config : optional LoopConfig)
  : Timeline :=
  progress 0 true
    (progress 1 true
       (loop (items_after_set items) (hd no_element items)
             (widths_of items) (xPercents_of items) (startX_of items)
             (totalWidth items config) (pixelsPerSecond config)
             (length items)
             (gsap_timeline (repeat (config_of config)) "none"))).

(** ** Well-formed measurements *)


(** What the measuring callback computes for one element. *)
Definition measured_width (el : Element) : number :=
  parseFloat (Some (getProperty el "width")).

Definition measured_xPercent (el : Element) : number :=
  nadd (nmul (ndiv (parseFloat (Some (getProperty el "x")))
                   (measured_width el)) 100)
       (getProperty el "xPercent").

Definition after_set (el : Element) : Element :=
  set_x 0 (set_xPercent (measured_xPercent el) el).

(** ** Inputs used in the statements *)

(** The two scenarios of the specification: items laid out side by side
    from offset [0], no transform, unit scale. *)
Definition scenario_wide : list Element :=
  [mkElement 0 100 100 0 0 1; mkElement 100 200 200 0 0 1].

Definition scenario_single : list Element := [mkElement 0 50 50 0 0 1].

Definition default_config : optional LoopConfig :=
  Some (mkLoopConfig (Some (Fin (-1))) (Some (Fin 30)) (Some (Fin 1))).

(** A configuration the specification calls invalid: speed [-1]. *)
Definition reversed_config : optional LoopConfig :=
  Some (mkLoopConfig (Some (Fin (-1))) (Some (Fin 30)) (Some (Fin (-1)))).

(** A configuration the specification calls invalid: padding [-10]. *)
Definition negative_padding_config : optional LoopConfig :=
  Some (mkLoopConfig (Some (Fin (-1))) (Some (Fin (-10))) (Some (Fin 1))).

(** An element that takes no room. *)
Definition collapsed : Element := mkElement 0 0 0 0 0 1.

Definition with_speed (v : optional number) (config : LoopConfig)
  : LoopConfig :=
  mkLoopConfig (repeat config) (paddingRight config) v.

(** [!config.speed] *)
Definition speed_is_falsy (config : LoopConfig) : bool :=
  match speed config with
  | Some n => negb (truthy n)
  | None => true
  end.

Definition with_m_speed (v : optional number) (config : MarqueeConfig)
  : MarqueeConfig :=
  mkMarqueeConfig (selector config) (m_repeat config)
                  (m_paddingRight config) v.

(** A page without marquee headings, and the options left out. *)
Definition empty_page : Document := fun _ => [].

Definition no_options : optional MarqueeConfig := None.

(** ** Variations of the input *)

Definition with_padding (v : optional number) (config : LoopConfig)
  : LoopConfig :=
  mkLoopConfig (repeat config) v (speed config).

(** [!parseFloat(config.paddingRight)] *)
Definition padding_is_falsy (config : LoopConfig) : bool :=
  negb (truthy (parseFloat (paddingRight config))).

(** * The builder over binary64 doubles

    The same code with JavaScript's own arithmetic: numbers are the binary64
    doubles of the kernel, and [+], [-], [*], [/], [===] and [<] round and
    compare as IEEE 754 prescribes. It is used wherever a property depends on
    rounding. *)

Module Binary64.

(** [a + b], [a - b], [a * b], [a / b], [a === b], [a < b] *)
Definition nadd (a b : float) : float := PrimFloat.add a b.
Definition nsub (a b : float) : float := PrimFloat.sub a b.
Definition nmul (a b : float) : float := PrimFloat.mul a b.
Definition ndiv (a b : float) : float := PrimFloat.div a b.
Definition strict_eq (a b : float) : bool := PrimFloat.eqb a b.
Definition less_than (a b : float) : bool := PrimFloat.ltb a b.

Definition NaN : float := PrimFloat.nan.

(** ToBoolean on a number: [0], [-0] and [NaN] are falsy. *)
Definition truthy (a : float) : bool :=
  negb (PrimFloat.eqb a 0) && PrimFloat.eqb a a.

(** [a || d] on numbers. *)
Definition or_num (a d : float) : float :=
  if truthy a then a else d.

(** [v || d] where [v] is a number or [undefined]. *)
Definition or_else (v : optional float) (d : float) : float :=
  match v with
  | Some n => or_num n d
  | None => d
  end.

(** [parseFloat(v)] for a number or [undefined]. *)
Definition parseFloat (v : optional float) : float :=
  match v with
  | Some n => n
  | None => NaN
  end.

Record Element : Type := mkElement {
  offsetLeft : float;
  offsetWidth : float;
  css_width : float;
  css_x : float;
  css_xPercent : float;
  css_scaleX : float
}.

(** [gsap.getProperty(el, property)] *)
Definition getProperty (el : Element) (property : String.string) : float :=
  if String.eqb property "width" then css_width el
  else if String.eqb property "x" then css_x el
  else if String.eqb property "xPercent" then css_xPercent el
  else if String.eqb property "scaleX" then css_scaleX el
  else NaN.

Definition set_xPercent (v : float) (el : Element) : Element :=
  mkElement (offsetLeft el) (offsetWidth el) (css_width el) (css_x el) v
            (css_scaleX el).

Definition set_x (v : float) (el : Element) : Element :=
  mkElement (offsetLeft el) (offsetWidth el) (css_width el) v
            (css_xPercent el) (css_scaleX el).

Record LoopConfig : Type := mkLoopConfig {
  repeat : optional float;
  paddingRight : optional float;
  speed : optional float
}.

Definition empty_config : LoopConfig := mkLoopConfig None None None.

(** [config || {}] *)
Definition config_of (config : optional LoopConfig) : LoopConfig :=
  match config with Some c => c | None => empty_config end.

Record Tween : Type := mkTween {
  target : nat;
  from_xPercent : optional float;
  to_xPercent : float;
  duration : float;
  immediateRender : optional bool;
  position : float
}.

Record Timeline : Type := mkTimeline {
  tl_repeat : optional float;
  tl_ease : String.string;
  children : list Tween;
  tl_progress : float
}.

(** [gsap.timeline({ repeat, defaults: { ease } })] *)
Definition gsap_timeline (rep : optional float) (ease : String.string)
  : Timeline :=
  mkTimeline rep ease [] 0.

Definition add_child (tw : Tween) (tl : Timeline) : Timeline :=
  mkTimeline (tl_repeat tl) (tl_ease tl) (children tl ++ [tw])
             (tl_progress tl).

(** [tl.to(item, { xPercent, duration }, position)] *)
Definition tl_to (item : nat) (xPercent dur pos : float) (tl : Timeline)
  : Timeline :=
  add_child (mkTween item None xPercent dur None pos) tl.

(** [tl.fromTo(item, { xPercent: from }, { xPercent, duration,
    immediateRender }, position)] *)
Definition tl_fromTo (item : nat) (from xPercent dur : float)
    (immediate : bool) (pos : float) (tl : Timeline) : Timeline :=
  add_child (mkTween item (Some from) xPercent dur (Some immediate) pos) tl.

(** [tl.progress(value, suppressEvents)] *)
Definition progress (value : float) (suppressEvents : bool) (tl : Timeline)
  : Timeline :=
  mkTimeline (tl_repeat tl) (tl_ease tl) (children tl) value.

(** [a[i] = v] and [a[i]] *)
Fixpoint array_set (i : nat) (v : float) (a : list float) : list float :=
  match i, a with
  | O, [] => [v]
  | O, _ :: t => v :: t
  | S j, [] => NaN :: array_set j v []
  | S j, h :: t => h :: array_set j v t
  end.

Definition array_get (a : list float) (i : nat) : float := nth i a NaN.

(** The callback of the first [gsap.set]. *)
Fixpoint measure (i : nat) (els : list Element) (widths xPercents : list float)
  : list float * list float * list Element :=
  match els with
  | [] => (widths, xPercents, [])
  | el :: rest =>
      let w := parseFloat (Some (getProperty el "width")) in
      let widths := array_set i w widths in
      let xp :=
        nadd (nmul (ndiv (parseFloat (Some (getProperty el "x"))) w) 100)
             (getProperty el "xPercent") in
      let xPercents := array_set i xp xPercents in
      let '(widths, xPercents, rest) := measure (S i) rest widths xPercents in
      (widths, xPercents, set_xPercent xp el :: rest)
  end.

Section Loop.

Variable items : list Element.
Variable first : Element.
Variables widths xPercents : list float.
Variables startX totalWidth pixelsPerSecond : float.

Definition item_at (i : nat) : Element := nth i items first.

Definition curX_at (i : nat) : float :=
  nmul (ndiv (array_get xPercents i) 100) (array_get widths i).

Definition distanceToStart_at (i : nat) : float :=
  nsub (nadd (offsetLeft (item_at i)) (curX_at i)) startX.

Definition distanceToLoop_at (i : nat) : float :=
  nadd (distanceToStart_at i)
       (nmul (array_get widths i) (getProperty (item_at i) "scaleX")).

(** The body of the [for] loop at index [i]. *)
Definition loop_body (tl : Timeline) (i : nat) : Timeline :=
  let curX := curX_at i in
  let distanceToLoop := distanceToLoop_at i in
  tl_fromTo i
    (nmul (ndiv (nadd (nsub curX distanceToLoop) totalWidth)
                (array_get widths i)) 100)
    (array_get xPercents i)
    (ndiv (nsub (nadd (nsub curX distanceToLoop) totalWidth) curX)
          pixelsPerSecond)
    false
    (ndiv distanceToLoop pixelsPerSecond)
    (tl_to i
       (nmul (ndiv (nsub curX distanceToLoop) (array_get widths i)) 100)
       (ndiv distanceToLoop pixelsPerSecond)
       0
       tl).

(** [for (i = 0; i < length; i++) { ... }] *)
Definition loop (length : nat) (tl : Timeline) : Timeline :=
  fold_left loop_body (seq 0 length) tl.

(** The two segments iteration [i] puts on the timeline. *)
Definition exit_tween (i : nat) : Tween :=
  let curX := curX_at i in
  let distanceToLoop := distanceToLoop_at i in
  mkTween i None
    (nmul (ndiv (nsub curX distanceToLoop) (array_get widths i)) 100)
    (ndiv distanceToLoop pixelsPerSecond) None 0.

Definition reentry_tween (i : nat) : Tween :=
  let curX := curX_at i in
  let distanceToLoop := distanceToLoop_at i in
  mkTween i
    (Some (nmul (ndiv (nadd (nsub curX distanceToLoop) totalWidth)
                      (array_get widths i)) 100))
    (array_get xPercents i)
    (ndiv (nsub (nadd (nsub curX distanceToLoop) totalWidth) curX)
          pixelsPerSecond)
    (Some false)
    (ndiv distanceToLoop pixelsPerSecond).

End Loop.

(** [parseFloat(config.paddingRight) || 0] *)
Definition padding_of (config : LoopConfig) : float :=
  or_num (parseFloat (paddingRight config)) 0.

(** The value of [totalWidth]. *)
Definition totalWidth_of (items : list Element) (first : Element)
    (widths xPercents : list float) (startX : float) (length : nat)
    (config : LoopConfig) : float :=
  let lastItem := nth (length - 1) items first in
  nadd
    (nadd
       (nsub
          (nadd (offsetLeft lastItem)
                (nmul (ndiv (array_get xPercents (length - 1)) 100)
                      (array_get widths (length - 1))))
          startX)
       (nmul (offsetWidth lastItem) (getProperty lastItem "scaleX")))
    (padding_of config).

(** [(config.speed || 1) * 100] *)
Definition pixelsPerSecond_of (config : LoopConfig) : float :=
  nmul (or_else (speed config) 1) 100.

Definition horizontalLoop (items : list Element) (config : optional LoopConfig)
  : completion Timeline :=
  let config := config_of config in
  let tl := gsap_timeline (repeat config) "none" in
  let length := length items in
  match items with
  | [] => Threw TypeError
  | first :: _ =>
      let startX := offsetLeft first in
      let pixelsPerSecond := pixelsPerSecond_of config in
      let '(widths, xPercents, items) := measure 0 items [] [] in
      let items := map (set_x 0) items in
      let totalWidth :=
        totalWidth_of items first widths xPercents startX length config in
      let tl :=
        loop items first widths xPercents startX totalWidth pixelsPerSecond
             length tl in
      Returned (progress 0 true (progress 1 true tl))
  end.

(** The tweens of item [i], in the order they were added. *)
Definition exit_segment (tl : Timeline) (i : nat) : option Tween :=
  nth_error (children tl) (2 * i).

Definition reentry_segment (tl : Timeline) (i : nat) : option Tween :=
  nth_error (children tl) (2 * i + 1).

Definition cycle_duration (tl : Timeline) (i : nat) : option float :=
  match exit_segment tl i, reentry_segment tl i with
  | Some e, Some r => Some (nadd (duration e) (duration r))
  | _, _ => None
  end.

(** The local variables of [horizontalLoop], as functions of its
    arguments. *)
Definition measured_width (el : Element) : float :=
  parseFloat (Some (getProperty el "width")).

Definition measured_xPercent (el : Element) : float :=
  nadd (nmul (ndiv (parseFloat (Some (getProperty el "x")))
                   (measured_width el)) 100)
       (getProperty el "xPercent").

Definition after_set (el : Element) : Element :=
  set_x 0 (set_xPercent (measured_xPercent el) el).

Definition widths_of (items : list Element) : list float :=
  fst (fst (measure 0 items [] [])).

Definition xPercents_of (items : list Element) : list float :=
  snd (fst (measure 0 items [] [])).

Definition items_after_set (items : list Element) : list Element :=
  map (set_x 0) (snd (measure 0 items [] [])).

Definition no_element : Element := mkElement NaN NaN NaN NaN NaN NaN.

Definition startX_of (items : list Element) : float :=
  offsetLeft (hd no_element items).

Definition totalWidth (items : list Element) (config : optional LoopConfig)
  : float :=
  totalWidth_of (items_after_set items) (hd no_element items)
    (widths_of items) (xPercents_of items) (startX_of items) (length items)
    (config_of config).

(** [totalWidth] before the padding is added. *)
Definition span (items : list Element) : float :=
  let lastItem := nth (length items - 1) (items_after_set items)
                      (hd no_element items) in
  nadd
    (nsub
       (nadd (offsetLeft lastItem)
             (nmul (ndiv (array_get (xPercents_of items) (length items - 1))
                         100)
                   (array_get (widths_of items) (length items - 1))))
       (startX_of items))
    (nmul (offsetWidth lastItem) (getProperty lastItem "scaleX")).

Definition curX (items : list Element) (i : nat) : float :=
  curX_at (widths_of items) (xPercents_of items) i.

Definition distanceToLoop (items : list Element) (i : nat) : float :=
  distanceToLoop_at (items_after_set items) (hd no_element items)
    (widths_of items) (xPercents_of items) (startX_of items) i.

Definition pixelsPerSecond (config : optional LoopConfig) : float :=
  pixelsPerSecond_of (config_of config).

(** The timeline [horizontalLoop] returns for a non-empty [items]. *)
Definition built (items : list Element) (config : optional LoopConfig)
  : Timeline :=
  progress 0 true
    (progress 1 true
       (loop (items_after_set items) (hd no_element items)
             (widths_of items) (xPercents_of items) (startX_of items)
             (totalWidth items config) (pixelsPerSecond config)
             (length items)
             (gsap_timeline (repeat (config_of config)) "none"))).

(** The scenarios of the specification and further rows of untransformed
    elements at unit scale. *)
Definition scenario_wide : list Element :=
  [mkElement 0 100 100 0 0 1; mkElement 100 200 200 0 0 1].



End Binary64.

(** * Lemmas on the embedding *)

Lemma array_set_end : forall a v, array_set (length a) v a = a ++ [v].
Proof.
  induction a as [|h t IH]; intros v; simpl.
  - reflexivity.
  - now rewrite IH.
Qed.

Lemma measure_from : forall els ws xps,
  length xps = length ws ->
  measure (length ws) els ws xps =
    (ws ++ map measured_width els,
     xps ++ map measured_xPercent els,
     map (fun el => set_xPercent (measured_xPercent el) el) els).
Proof.
  induction els as [|el rest IH]; intros ws xps Hlen.
  - simpl. now rewrite !app_nil_r.
  - cbn [measure].
    fold (measured_width el). fold (measured_xPercent el).
    rewrite array_set_end.
    rewrite <- Hlen at 2. rewrite array_set_end.
    assert (HS : S (length ws) = length (ws ++ [measured_width el])).
    { rewrite length_app. simpl. lia. }
    rewrite HS, IH.
    + cbn [map]. now rewrite <- !app_assoc.
    + rewrite !length_app. simpl. lia.
Qed.

Lemma measure_all : forall els,
  measure 0 els [] [] =
    (map measured_width els, map measured_xPercent els,
     map (fun el => set_xPercent (measured_xPercent el) el) els).
Proof.
  intros els. exact (measure_from els [] [] eq_refl).
Qed.

Lemma widths_of_map : forall items, widths_of items = map measured_width items.
Proof. intros. unfold widths_of. now rewrite measure_all. Qed.

Lemma xPercents_of_map : forall items,
  xPercents_of items = map measured_xPercent items.
Proof. intros. unfold xPercents_of. now rewrite measure_all. Qed.

Lemma items_after_set_map : forall items,
  items_after_set items = map after_set items.
Proof.
  intros. unfold items_after_set. rewrite measure_all. cbn [snd].
  now rewrite map_map.
Qed.

(** *** The children appended by the loop *)

Section LoopFacts.

Variable items : list Element.
Variable first : Element.
Variables widths xPercents : list number.
Variables startX totalWidth pixelsPerSecond : number.

Let body := loop_body items first widths xPercents startX totalWidth
                      pixelsPerSecond.
Let exit_tween := exit_tween items first widths xPercents startX
                             pixelsPerSecond.
Let reentry_tween := reentry_tween items first widths xPercents startX
                                   totalWidth pixelsPerSecond.

Lemma loop_body_children : forall tl i,
  children (body tl i) = children tl ++ [exit_tween i; reentry_tween i].
Proof.
  intros tl i. unfold body, loop_body, tl_fromTo, tl_to, add_child.
  cbn [children]. now rewrite <- app_assoc.
Qed.

Lemma loop_body_header : forall tl i,
  tl_repeat (body tl i) = tl_repeat tl /\
  tl_ease (body tl i) = tl_ease tl /\
  tl_progress (body tl i) = tl_progress tl.
Proof. intros; repeat split. Qed.

Lemma fold_body_children : forall l tl,
  children (fold_left body l tl) =
  children tl ++ flat_map (fun i => [exit_tween i; reentry_tween i]) l.
Proof.
  induction l as [|i l IH]; intros tl; cbn [fold_left flat_map].
  - now rewrite app_nil_r.
  - rewrite IH, loop_body_children. now rewrite <- app_assoc.
Qed.

Lemma fold_body_header : forall l tl,
  tl_repeat (fold_left body l tl) = tl_repeat tl /\
  tl_ease (fold_left body l tl) = tl_ease tl /\
  tl_progress (fold_left body l tl) = tl_progress tl.
Proof.
  induction l as [|i l IH]; intros tl; cbn [fold_left].
  - repeat split.
  - destruct (IH (body tl i)) as (H1 & H2 & H3).
    rewrite H1, H2, H3. apply loop_body_header.
Qed.

End LoopFacts.

Lemma nth_error_pairs : forall (A : Type) (f g : nat -> A) n s i,
  (i < n)%nat ->
  nth_error (flat_map (fun k => [f k; g k]) (seq s n)) (2 * i)
    = Some (f (s + i)%nat) /\
  nth_error (flat_map (fun k => [f k; g k]) (seq s n)) (2 * i + 1)
    = Some (g (s + i)%nat).
Proof.
  intros A f g n. induction n as [|n IH]; intros s i Hi; [lia|].
  cbn [seq flat_map app].
  destruct i as [|i].
  - cbn. rewrite Nat.add_0_r. split; reflexivity.
  - replace (2 * S i)%nat with (S (S (2 * i))) by lia.
    replace (S (S (2 * i)) + 1)%nat with (S (S (2 * i + 1))) by lia.
    cbn [nth_error].
    replace (s + S i)%nat with (S s + i)%nat by lia.
    apply IH. lia.
Qed.

(** *** What the builder returns *)

Lemma horizontalLoop_cons : forall first rest config,
  horizontalLoop (first :: rest) config =
  Returned (built (first :: rest) config).
Proof.
  intros first rest config.
  unfold horizontalLoop, built, totalWidth, pixelsPerSecond, startX_of,
    items_after_set, widths_of, xPercents_of, config_of, no_element.
  destruct (measure 0 (first :: rest) [] []) as [[ws xps] els].
  reflexivity.
Qed.

Lemma horizontalLoop_nil : forall config,
  horizontalLoop [] config = Threw TypeError.
Proof. reflexivity. Qed.

Lemma built_segments : forall items config i,
  (i < length items)%nat ->
  exit_segment (built items config) i =
    Some (exit_tween (items_after_set items) (hd no_element items)
            (widths_of items) (xPercents_of items) (startX_of items)
            (pixelsPerSecond config) i) /\
  reentry_segment (built items config) i =
    Some (reentry_tween (items_after_set items) (hd no_element items)
            (widths_of items) (xPercents_of items) (startX_of items)
            (totalWidth items config) (pixelsPerSecond config) i).
Proof.
  intros items config i Hi.
  unfold exit_segment, reentry_segment, built, progress, loop.
  cbn [children]. rewrite fold_body_children. cbn [gsap_timeline children app].
  apply (nth_error_pairs _ _ _ (length items) 0%nat i Hi).
Qed.

Lemma built_header : forall items config,
  tl_repeat (built items config) = repeat (config_of config) /\
  tl_ease (built items config) = "none" /\
  tl_progress (built items config) = 0.
Proof.
  intros items config. unfold built, progress, loop.
  cbn [tl_repeat tl_ease tl_progress].
  destruct (fold_body_header (items_after_set items) (hd no_element items)
              (widths_of items) (xPercents_of items) (startX_of items)
              (totalWidth items config) (pixelsPerSecond config)
              (seq 0 (length items))
              (gsap_timeline (repeat (config_of config)) "none"))
    as (H1 & H2 & _).
  rewrite H1, H2. repeat split.
Qed.

(** Widths 100 and 200, padding 30, speed 1: the first item leaves by its
    own width in one second and comes back in at 230 %; the second leaves by
    1.5 times its width in three seconds and comes back in at 15 %. *)
Example wide_first_item :
  exists tl e r,
    horizontalLoop scenario_wide default_config = Returned tl /\
    exit_segment tl 0 = Some e /\ reentry_segment tl 0 = Some r /\
    strict_eq (to_xPercent e) (-100) = true /\
    strict_eq (duration e) 1 = true /\
    option_map (fun v => strict_eq v 230) (from_xPercent r) = Some true /\
    strict_eq (duration r) 2.3 = true.
Proof. do 3 eexists. repeat split; vm_compute; reflexivity. Qed.

Example wide_second_item :
  exists tl e r,
    horizontalLoop scenario_wide default_config = Returned tl /\
    exit_segment tl 1 = Some e /\ reentry_segment tl 1 = Some r /\
    strict_eq (to_xPercent e) (-150) = true /\
    strict_eq (duration e) 3 = true /\
    option_map (fun v => strict_eq v 15) (from_xPercent r) = Some true /\
    strict_eq (duration r) 0.3 = true.
Proof. do 3 eexists. repeat split; vm_compute; reflexivity. Qed.

(** *** Finite arithmetic *)


Lemma Qeq_bool_false : forall p q, ~ p == q -> Qeq_bool p q = false.
Proof.
  intros p q H. destruct (Qeq_bool p q) eqn:E; [|reflexivity].
  apply Qeq_bool_iff in E. contradiction.
Qed.



Lemma strict_eq_fin : forall p q, p == q -> strict_eq (Fin p) (Fin q) = true.
Proof. intros p q H. now apply Qeq_bool_iff. Qed.

Lemma less_than_fin : forall p q, p < q -> less_than (Fin p) (Fin q) = true.
Proof.
  intros p q H. unfold less_than.
  now rewrite (proj1 (Qlt_alt p q) H).
Qed.



(** *** Elements by index *)

Lemma array_get_map : forall (f : Element -> number) l d i,
  (i < length l)%nat -> array_get (map f l) i = f (nth i l d).
Proof.
  intros f l d i Hi. unfold array_get.
  rewrite (nth_indep (map f l) NaN (f d)) by now rewrite length_map.
  apply map_nth.
Qed.

Lemma nth_map_indep : forall (f : Element -> Element) l d d' i,
  (i < length l)%nat -> nth i (map f l) d = f (nth i l d').
Proof.
  intros f l d d' i Hi.
  rewrite (nth_indep (map f l) d (f d')) by now rewrite length_map.
  apply map_nth.
Qed.






Lemma pixelsPerSecond_speed : forall config s,
  speed (config_of config) = Some (Fin s) -> ~ s == 0 ->
  pixelsPerSecond config = Fin (s * 100).
Proof.
  intros config s Hs Hnz.
  unfold pixelsPerSecond, pixelsPerSecond_of. rewrite Hs.
  unfold or_else, or_num, truthy. now rewrite (Qeq_bool_false _ _ Hnz).
Qed.

(** A finite [paddingRight] is the padding, up to the representation of
    zero. *)
Lemma padding_of_fin : forall rep p sp,
  exists p', padding_of (mkLoopConfig rep (Some (Fin p)) sp) = Fin p' /\
             p' == p.
Proof.
  intros rep p sp. unfold padding_of, parseFloat, or_num, truthy.
  cbn [paddingRight].
  destruct (Qeq_bool p 0) eqn:E; cbn [negb].
  - apply Qeq_bool_iff in E. exists 0. split; [reflexivity|]. now rewrite E.
  - exists p. split; reflexivity.
Qed.

Lemma padding_of_given : forall rep p sp,
  strict_eq (padding_of (mkLoopConfig rep (Some (Fin p)) sp)) (Fin p) = true.
Proof.
  intros rep p sp. destruct (padding_of_fin rep p sp) as (p' & -> & E).
  now apply strict_eq_fin.
Qed.



(** *** Not-a-number *)

Lemma nadd_NaN_r : forall a, nadd a NaN = NaN.
Proof. now destruct a. Qed.

Lemma ndiv_zero_not_finite : forall a w,
  w == 0 -> isFinite (ndiv a (Fin w)) = false.
Proof.
  intros a w Hw. destruct a as [q| | |]; cbn [ndiv].
  - apply Qeq_bool_iff in Hw. rewrite Hw. unfold inf_times.
    now destruct (q ?= 0).
  - now destruct (w ?= 0).
  - now destruct (w ?= 0).
  - reflexivity.
Qed.

Lemma nmul_hundred_not_finite : forall a,
  isFinite a = false -> isFinite (nmul a 100) = false.
Proof. intros [q| | |] H; try discriminate; reflexivity. Qed.

Lemma ndiv_hundred_not_finite : forall a,
  isFinite a = false -> isFinite (ndiv a 100) = false.
Proof. intros [q| | |] H; try discriminate; reflexivity. Qed.

Lemma nadd_not_finite : forall a b,
  isFinite a = false -> isFinite (nadd a b) = false.
Proof.
  intros [q| | |] b H; try discriminate; now destruct b.
Qed.

Lemma nmul_zero_not_finite : forall a w,
  isFinite a = false -> w == 0 -> nmul a (Fin w) = NaN.
Proof.
  intros [q| | |] w H Hw; try discriminate; cbn [nmul]; unfold inf_times;
    try reflexivity;
    apply Qeq_alt in Hw; now rewrite Hw.
Qed.

(** A zero width turns [curX] into [NaN], whatever the other measurements. *)
Lemma curX_zero_width : forall items d i w,
  (i < length items)%nat ->
  css_width (nth i items d) = Fin w -> w == 0 ->
  array_get (widths_of items) i = Fin w /\ curX items i = NaN.
Proof.
  intros items d i w Hi Ew Hw.
  unfold curX, curX_at.
  rewrite widths_of_map, xPercents_of_map.
  rewrite !(array_get_map _ items d i Hi).
  unfold measured_xPercent, measured_width, parseFloat.
  change (getProperty (nth i items d) "width") with (css_width (nth i items d)).
  rewrite Ew. split; [reflexivity|].
  apply nmul_zero_not_finite; [|exact Hw].
  apply ndiv_hundred_not_finite, nadd_not_finite, nmul_hundred_not_finite.
  now apply ndiv_zero_not_finite.
Qed.

(** * Lemmas on the binary64 builder *)

Lemma b64_array_set_end : forall a v,
  Binary64.array_set (length a) v a = a ++ [v].
Proof.
  induction a as [|h t IH]; intros v; simpl.
  - reflexivity.
  - now rewrite IH.
Qed.

Lemma b64_measure_from : forall els ws xps,
  length xps = length ws ->
  Binary64.measure (length ws) els ws xps =
    (ws ++ map Binary64.measured_width els,
     xps ++ map Binary64.measured_xPercent els,
     map (fun el =>
            Binary64.set_xPercent (Binary64.measured_xPercent el) el) els).
Proof.
  induction els as [|el rest IH]; intros ws xps Hlen.
  - simpl. now rewrite !app_nil_r.
  - cbn [Binary64.measure].
    fold (Binary64.measured_width el). fold (Binary64.measured_xPercent el).
    rewrite b64_array_set_end.
    rewrite <- Hlen at 2. rewrite b64_array_set_end.
    assert (HS : S (length ws) =
                 length (ws ++ [Binary64.measured_width el])).
    { rewrite length_app. simpl. lia. }
    rewrite HS, IH.
    + cbn [map]. now rewrite <- !app_assoc.
    + rewrite !length_app. simpl. lia.
Qed.

Lemma b64_widths_of_map : forall items,
  Binary64.widths_of items = map Binary64.measured_width items.
Proof.
  intros. unfold Binary64.widths_of.
  pose proof (b64_measure_from items [] [] eq_refl) as H.
  cbn [length app] in H. now rewrite H.
Qed.

Section B64LoopFacts.

Variable items : list Binary64.Element.
Variable first : Binary64.Element.
Variables widths xPercents : list float.
Variables startX totalWidth pixelsPerSecond : float.

Let body := Binary64.loop_body items first widths xPercents startX totalWidth
                               pixelsPerSecond.
Let exit_tween := Binary64.exit_tween items first widths xPercents startX
                                      pixelsPerSecond.
Let reentry_tween := Binary64.reentry_tween items first widths xPercents
                                            startX totalWidth pixelsPerSecond.



End B64LoopFacts.



(** The padding is the last thing added to [totalWidth]. *)
Lemma b64_totalWidth_span : forall items config,
  Binary64.totalWidth items config =
  Binary64.nadd (Binary64.span items)
                (Binary64.padding_of (Binary64.config_of config)).
Proof. reflexivity. Qed.

(** * Properties of the loop builder *)



Lemma nth_pred_length : forall (l : list Element) d,
  nth (length l - 1) l d = last l d.
Proof.
  induction l as [|a l IH]; intros d; [reflexivity|].
  destruct l as [|b l]; [reflexivity|].
  specialize (IH d).
  replace (length (a :: b :: l) - 1)%nat with (S (length l)) by (simpl; lia).
  replace (length (b :: l) - 1)%nat with (length l) in IH by (simpl; lia).
  exact IH.
Qed.

(** C3 (total span). For every non-empty [items], [totalWidth] is the last
    item's [offsetLeft] plus its measured [xPercent] turned back into pixels,
    minus the first item's [offsetLeft], plus the last item's [offsetWidth]
    times its [scaleX], plus the padding, and a finite [paddingRight] is the
    padding; for widths 100 and 200 with padding 30 and speed 1 the total is
    330 and both items cycle in 3.3 s; for one item of width 50 with padding
    10 and speed 2 the total is 60 and the cycle takes 0.3 s. *)
Theorem totalWidth_formula :
  (forall first rest config,
     let items := first :: rest in
     let lastItem := last items first in
     totalWidth items config =
       nadd
         (nadd
            (nsub
               (nadd (offsetLeft lastItem)
                     (nmul (ndiv (measured_xPercent lastItem) 100)
                           (measured_width lastItem)))
               (offsetLeft first))
            (nmul (offsetWidth lastItem) (css_scaleX lastItem)))
         (padding_of (config_of config))) /\
  (forall rep p sp,
     strict_eq (padding_of (mkLoopConfig rep (Some (Fin p)) sp)) (Fin p)
       = true) /\
  (let config := Some (mkLoopConfig (Some (Fin (-1))) (Some (Fin 30))
                                    (Some (Fin 1))) in
   strict_eq (totalWidth scenario_wide config) 330 = true /\
   exists tl d0 d1,
     horizontalLoop scenario_wide config = Returned tl /\
     cycle_duration tl 0 = Some d0 /\ strict_eq d0 3.3 = true /\
     cycle_duration tl 1 = Some d1 /\ strict_eq d1 3.3 = true) /\
  (let config := Some (mkLoopConfig (Some (Fin (-1))) (Some (Fin 10))
                                    (Some (Fin 2))) in
   strict_eq (totalWidth scenario_single config) 60 = true /\
   exists tl d0,
     horizontalLoop scenario_single config = Returned tl /\
     cycle_duration tl 0 = Some d0 /\ strict_eq d0 0.3 = true).
Proof.
  split; [|split; [|split]].
  - intros first rest config items lastItem.
    assert (Hl : (length items - 1 < length items)%nat) by (simpl; lia).
    unfold totalWidth, totalWidth_of.
    rewrite widths_of_map, xPercents_of_map, items_after_set_map.
    rewrite (nth_map_indep after_set items _ first _ Hl).
    rewrite !(array_get_map _ items first _ Hl).
    rewrite nth_pred_length. fold lastItem.
    reflexivity.
  - exact padding_of_given.
  - split; [vm_compute; reflexivity|].
    do 3 eexists. repeat split; vm_compute; reflexivity.
  - split; [vm_compute; reflexivity|].
    do 2 eexists. repeat split; vm_compute; reflexivity.
Qed.

(** X15. For every item [i] the exit tween is scheduled at time [0] and
    the re-entry tween at [distanceToLoop / pixelsPerSecond], with
    [pixelsPerSecond = (speed || 1) * 100]: the very number passed as the
    exit tween's duration. The exit is a [to] tween, without "from" value;
    the re-entry is created with [immediateRender: false]. What the
    animation library does with that flag is not part of this code. *)
Theorem reentry_starts_when_exit_ends : forall first rest config i,
  (i < length (first :: rest))%nat ->
  exists tl e r,
    horizontalLoop (first :: rest) config = Returned tl /\
    exit_segment tl i = Some e /\
    reentry_segment tl i = Some r /\
    target e = i /\ target r = i /\
    position e = 0 /\
    position r =
      ndiv (distanceToLoop (first :: rest) i)
           (nmul (or_else (speed (config_of config)) 1) 100) /\
    position r = duration e /\
    from_xPercent e = None /\
    immediateRender r = Some false.
Proof.
  intros first rest config i Hi.
  set (items := first :: rest) in *.
  destruct (built_segments items config i Hi) as [He Hr].
  do 3 eexists.
  split; [apply horizontalLoop_cons|].
  split; [exact He|]. split; [exact Hr|].
  cbn [target position duration from_xPercent immediateRender
       exit_tween reentry_tween].
  repeat split.
Qed.

(** *** Validation *)

(** C5, as stated, fails: with speed [-1] the builder raises nothing and
    returns a timeline whose exit segment has a negative duration; with
    padding [-10] it raises nothing either. *)
Lemma invalid_configuration_is_accepted :
  (forall e, horizontalLoop scenario_single reversed_config <> Threw e) /\
  (exists tl e,
     horizontalLoop scenario_single reversed_config = Returned tl /\
     exit_segment tl 0 = Some e /\
     less_than (duration e) 0 = true) /\
  (forall e,
     horizontalLoop scenario_single negative_padding_config <> Threw e).
Proof.
  split; [|split].
  - intros e. discriminate.
  - do 2 eexists. repeat split; vm_compute; reflexivity.
  - intros e. discriminate.
Qed.

(** C5, amended. For a non-empty item sequence, a non-positive speed or a
    negative padding is not rejected: the builder returns a timeline with
    both segments of every item; a zero speed counts as [1], a negative speed
    makes [pixelsPerSecond] negative, and the padding enters [totalWidth] as
    given. *)
Theorem configuration_is_never_rejected : forall first rest rep p s,
  s <= 0 \/ p < 0 ->
  let config := Some (mkLoopConfig rep (Some (Fin p)) (Some (Fin s))) in
  exists tl,
    horizontalLoop (first :: rest) config = Returned tl /\
    (forall i, (i < length (first :: rest))%nat ->
       exists e r,
         exit_segment tl i = Some e /\ reentry_segment tl i = Some r) /\
    (s == 0 -> pixelsPerSecond config = nmul 1 100) /\
    (s < 0 -> pixelsPerSecond config = Fin (s * 100) /\
              less_than (pixelsPerSecond config) 0 = true) /\
    strict_eq (padding_of (config_of config)) (Fin p) = true.
Proof.
  intros first rest rep p s _ config.
  exists (built (first :: rest) config).
  split; [apply horizontalLoop_cons|]. split; [|split; [|split]].
  - intros i Hi.
    destruct (built_segments (first :: rest) config i Hi) as [He Hr].
    eauto.
  - intros Hs. unfold pixelsPerSecond, pixelsPerSecond_of, config.
    cbn [config_of speed or_else]. unfold or_num, truthy.
    apply Qeq_bool_iff in Hs. now rewrite Hs.
  - intros Hs.
    assert (Hnz : ~ s == 0) by (intros E; rewrite E in Hs; discriminate Hs).
    rewrite (pixelsPerSecond_speed config s eq_refl Hnz).
    split; [reflexivity|]. apply less_than_fin.
    setoid_replace 0 with (0 * 100) by ring.
    apply Qmult_lt_compat_r; [reflexivity|exact Hs].
  - apply padding_of_given.
Qed.

(** *** Degenerate geometry *)

(** C6, as stated, fails: for one item of width zero the builder raises
    nothing and returns a timeline whose displacement values are [NaN]. *)
Lemma zero_width_is_not_guarded :
  (forall e, horizontalLoop [collapsed] default_config <> Threw e) /\
  exists tl e r,
    horizontalLoop [collapsed] default_config = Returned tl /\
    exit_segment tl 0 = Some e /\
    reentry_segment tl 0 = Some r /\
    to_xPercent e = NaN /\
    from_xPercent r = Some NaN.
Proof.
  split.
  - intros e. discriminate.
  - do 3 eexists. repeat split; vm_compute; reflexivity.
Qed.

(** C6, amended. For an input containing an item of zero measured width the
    division by the width is not guarded and nothing is raised: the builder
    returns a timeline in which that item's exit target, re-entry "from"
    value and both durations are [NaN]. *)
Theorem zero_width_yields_NaN : forall first rest config i w,
  (i < length (first :: rest))%nat ->
  css_width (nth i (first :: rest) first) = Fin w ->
  w == 0 ->
  exists tl e r,
    horizontalLoop (first :: rest) config = Returned tl /\
    exit_segment tl i = Some e /\
    reentry_segment tl i = Some r /\
    array_get (widths_of (first :: rest)) i = Fin w /\
    to_xPercent e = NaN /\
    from_xPercent r = Some NaN /\
    duration e = NaN /\
    duration r = NaN.
Proof.
  intros first rest config i w Hi Ew Hw.
  set (items := first :: rest) in *.
  destruct (built_segments items config i Hi) as [He Hr].
  destruct (curX_zero_width items first i w Hi Ew Hw) as [Ewi Ec].
  do 3 eexists.
  split; [apply horizontalLoop_cons|].
  split; [exact He|]. split; [exact Hr|].
  split; [exact Ewi|].
  cbn [to_xPercent from_xPercent duration exit_tween reentry_tween].
  unfold distanceToLoop_at, distanceToStart_at.
  fold (curX items i). rewrite Ec.
  rewrite nadd_NaN_r. repeat split.
Qed.

(** *** Empty input *)

(** C7 (empty input). When the selector matches nothing,
    [setupMarqueeAnimation] builds no timeline: it completes normally and
    returns [undefined]. *)
Theorem empty_marquee_is_skipped : forall document config,
  document (selector_of (marquee_config_of config)) = [] ->
  setupMarqueeAnimation document config = Returned None.
Proof.
  intros document config Hnone.
  unfold setupMarqueeAnimation. now rewrite Hnone.
Qed.

(** *** Padding *)


(** *** Falsy speed *)

(** The builder, for a falsy speed. *)
Lemma horizontalLoop_falsy_speed : forall items config,
  speed_is_falsy (config_of config) = true ->
  pixelsPerSecond config = nmul 1 100 /\
  horizontalLoop items config =
    horizontalLoop items (Some (with_speed (Some (Fin 1)) (config_of config))).
Proof.
  intros items config Hfalsy.
  assert (Hpps : pixelsPerSecond_of (config_of config) = nmul 1 100).
  { unfold pixelsPerSecond_of, or_else, or_num.
    unfold speed_is_falsy in Hfalsy.
    destruct (speed (config_of config)) as [n|]; [|reflexivity].
    apply negb_true_iff in Hfalsy. now rewrite Hfalsy. }
  split; [exact Hpps|].
  destruct items as [|first rest]; [reflexivity|].
  rewrite !horizontalLoop_cons. f_equal.
  unfold built, totalWidth, pixelsPerSecond.
  cbn [config_of]. rewrite Hpps. reflexivity.
Qed.

(** C10 (falsy speed). When [config.speed] is falsy ([0], [NaN] or
    [undefined]) the rate is [1 * 100] and [horizontalLoop] completes exactly
    as it does with speed [1]: for a non-empty [items] it returns the same
    timeline, segment for segment, and raises nothing. The same holds of
    [setupMarqueeAnimation], whose [??] lets [0] and [NaN] through to the
    builder. *)
Theorem falsy_speed_counts_as_one :
  (forall items config,
     speed_is_falsy (config_of config) = true ->
     pixelsPerSecond config = nmul 1 100 /\
     horizontalLoop items config =
       horizontalLoop items
         (Some (with_speed (Some (Fin 1)) (config_of config))) /\
     (items <> [] -> exists tl, horizontalLoop items config = Returned tl)) /\
  (forall document config,
     match m_speed config with Some n => truthy n | None => false end = false ->
     setupMarqueeAnimation document (Some config) =
       setupMarqueeAnimation document
         (Some (with_m_speed (Some (Fin 1)) config))).
Proof.
  split.
  - intros items config Hfalsy.
    destruct (horizontalLoop_falsy_speed items config Hfalsy) as [Hpps Heq].
    split; [exact Hpps|]. split; [exact Heq|].
    destruct items as [|first rest]; [congruence|].
    intros _. eexists. apply horizontalLoop_cons.
  - intros document config Hfalsy.
    unfold setupMarqueeAnimation. cbn [marquee_config_of].
    change (selector_of (with_m_speed (Some (Fin 1)) config))
      with (selector_of config).
    destruct (Nat.ltb 0 (length (document (selector_of config))));
      [|reflexivity].
    cbn [with_m_speed m_repeat m_paddingRight m_speed nullish].
    destruct (m_speed config) as [n|]; [|reflexivity].
    cbn [nullish].
    match goal with
    | |- context [horizontalLoop ?items (Some ?c)] =>
        destruct (horizontalLoop_falsy_speed items (Some c)) as [_ Heq]
    end.
    + cbn [config_of speed_is_falsy speed]. now rewrite Hfalsy.
    + rewrite Heq. reflexivity.
Qed.

(** *** Repeat count *)

(** X13. The repeat count reaches the timeline as it is given; how many
    cycles the timeline then plays is decided by the animation library. *)
Lemma repeat_is_forwarded : forall document config first rest,
  document (selector_of (marquee_config_of config)) = first :: rest ->
  exists tl,
    setupMarqueeAnimation document config = Returned (Some tl) /\
    tl_repeat tl =
      Some (nullish (m_repeat (marquee_config_of config)) (-1)) /\
    tl_ease tl = "none".
Proof.
  intros document config first rest Hitems.
  unfold setupMarqueeAnimation. rewrite Hitems.
  cbn [length Nat.ltb Nat.leb]. rewrite horizontalLoop_cons.
  eexists. split; [reflexivity|].
  match goal with
  | |- context [built ?items ?c] =>
      destruct (built_header items c) as (H1 & H2 & _)
  end.
  rewrite H1, H2. split; reflexivity.
Qed.

(** * The theorems at concrete inputs *)

Lemma reentry_starts_when_exit_ends_witness :
  exists tl e r,
    horizontalLoop scenario_wide default_config = Returned tl /\
    exit_segment tl 1 = Some e /\
    reentry_segment tl 1 = Some r /\
    position r = duration e /\
    immediateRender r = Some false.
Proof.
  destruct (reentry_starts_when_exit_ends (mkElement 0 100 100 0 0 1)
              [mkElement 100 200 200 0 0 1] default_config 1)
    as (tl & e & r & Htl & He & Hr & _ & _ & _ & _ & Hpos & _ & Himm).
  - simpl; lia.
  - exists tl, e, r. repeat split; assumption.
Defined.

Lemma configuration_is_never_rejected_witness :
  exists tl, horizontalLoop scenario_single reversed_config = Returned tl.
Proof.
  destruct (configuration_is_never_rejected (mkElement 0 50 50 0 0 1) []
              (Some (Fin (-1))) 30 (-1))
    as (tl & Htl & _).
  - left. discriminate.
  - exists tl. exact Htl.
Defined.

Lemma zero_width_yields_NaN_witness :
  exists tl e,
    horizontalLoop [collapsed] default_config = Returned tl /\
    exit_segment tl 0 = Some e /\
    to_xPercent e = NaN.
Proof.
  destruct (zero_width_yields_NaN collapsed [] default_config 0 0)
    as (tl & e & r & Htl & He & _ & _ & Hto & _).
  - simpl; lia.
  - reflexivity.
  - reflexivity.
  - exists tl, e. repeat split; assumption.
Defined.

Lemma empty_marquee_is_skipped_witness :
  setupMarqueeAnimation empty_page no_options = Returned None.
Proof.
  apply (empty_marquee_is_skipped empty_page no_options). reflexivity.
Defined.

Lemma falsy_speed_counts_as_one_witness :
  horizontalLoop scenario_wide
    (Some (mkLoopConfig None (Some (Fin 30)) (Some (Fin 0)))) =
  horizontalLoop scenario_wide
    (Some (mkLoopConfig None (Some (Fin 30)) (Some (Fin 1)))).
Proof.
  apply (proj1 falsy_speed_counts_as_one scenario_wide
           (Some (mkLoopConfig None (Some (Fin 30)) (Some (Fin 0))))).
  reflexivity.
Defined.

(** * Further properties of the builder *)

(** *** The measuring pass *)

(** X4. After the measuring pass [widths] and [xPercents] have one entry per
    item: entry [i] of [widths] is the width read for item [i], and entry [i]
    of [xPercents] is its [x] divided by that width, times [100], plus its
    [xPercent]. *)
Theorem measuring_pass_fills_the_arrays : forall items i d,
  (i < length items)%nat ->
  length (widths_of items) = length items /\
  length (xPercents_of items) = length items /\
  array_get (widths_of items) i = css_width (nth i items d) /\
  array_get (xPercents_of items) i =
    nadd (nmul (ndiv (css_x (nth i items d)) (css_width (nth i items d)))
               100)
         (css_xPercent (nth i items d)).
Proof.
  intros items i d Hi.
  rewrite widths_of_map, xPercents_of_map.
  rewrite !length_map.
  rewrite !(array_get_map _ items d i Hi).
  repeat split.
Qed.

Lemma measuring_pass_fills_the_arrays_witness :
  length (widths_of scenario_wide) = 2%nat /\
  array_get (widths_of scenario_wide) 1 = 200.
Proof.
  destruct (measuring_pass_fills_the_arrays scenario_wide 1 no_element)
    as (Hlen & _ & Hw & _).
  - simpl; lia.
  - split; assumption.
Defined.

(** *** Errors *)

(** X1. [horizontalLoop] raises a [TypeError] on an empty array, and the
    length test of [setupMarqueeAnimation] keeps it from being called on
    one: for the elements [gsap.utils.toArray] has returned, and options
    that are an object or left out, [setupMarqueeAnimation] returns
    [undefined] when there are none, and
    otherwise the timeline [horizontalLoop] returns for them under
    [repeat ?? -1], [paddingRight ?? 30] and [speed ?? 1]. *)
Theorem setup_guards_the_builder :
  (forall config, horizontalLoop [] config = Threw TypeError) /\
  (forall document config,
     let c := marquee_config_of config in
     let items := document (selector_of c) in
     match items with
     | [] => setupMarqueeAnimation document config = Returned None
     | _ :: _ =>
         exists tl,
           setupMarqueeAnimation document config = Returned (Some tl) /\
           horizontalLoop items
             (Some (mkLoopConfig (Some (nullish (m_repeat c) (-1)))
                                 (Some (nullish (m_paddingRight c) 30))
                                 (Some (nullish (m_speed c) 1))))
             = Returned tl
     end).
Proof.
  split; [reflexivity|].
  intros document config c items.
  destruct items as [|first rest] eqn:E.
  - unfold setupMarqueeAnimation. fold c. fold items. now rewrite E.
  - eexists. unfold setupMarqueeAnimation. fold c. fold items. rewrite E.
    cbn [length Nat.ltb Nat.leb]. rewrite horizontalLoop_cons.
    split; reflexivity.
Qed.

(** *** The shape of the timeline *)

Lemma map_pairs : forall (A B : Type) (f : A -> B) (g h : nat -> A) l,
  map f (flat_map (fun i => [g i; h i]) l) =
  flat_map (fun i => [f (g i); f (h i)]) l.
Proof.
  intros A B f g h l. induction l as [|i l IH]; [reflexivity|].
  cbn [flat_map app map]. now rewrite IH.
Qed.

Lemma length_pairs : forall (A : Type) (g h : nat -> A) l,
  length (flat_map (fun i => [g i; h i]) l) = (2 * length l)%nat.
Proof.
  intros A g h l. induction l as [|i l IH]; [reflexivity|].
  cbn [flat_map app length]. rewrite IH. lia.
Qed.

Lemma built_children : forall items config,
  children (built items config) =
  flat_map
    (fun i =>
       [exit_tween (items_after_set items) (hd no_element items)
          (widths_of items) (xPercents_of items) (startX_of items)
          (pixelsPerSecond config) i;
        reentry_tween (items_after_set items) (hd no_element items)
          (widths_of items) (xPercents_of items) (startX_of items)
          (totalWidth items config) (pixelsPerSecond config) i])
    (seq 0 (length items)).
Proof.
  intros items config. unfold built, progress, loop. cbn [children].
  now rewrite fold_body_children.
Qed.

(** X2. For [n] items the builder adds exactly [2 n] tweens to the
    timeline, item by item: for each item a [to] tween without
    [immediateRender] at position [0], then a [fromTo] tween with
    [immediateRender: false]. ([children] lists them in the order of the
    calls.) *)
Theorem two_segments_per_item : forall first rest config,
  exists tl,
    horizontalLoop (first :: rest) config = Returned tl /\
    length (children tl) = (2 * length (first :: rest))%nat /\
    map target (children tl) =
      flat_map (fun i => [i; i]) (seq 0 (length (first :: rest))) /\
    map immediateRender (children tl) =
      flat_map (fun _ => [None; Some false])
               (seq 0 (length (first :: rest))) /\
    Forall (fun tw => match immediateRender tw with
                      | None => position tw = 0
                      | Some immediate => immediate = false
                      end)
           (children tl).
Proof.
  intros first rest config.
  exists (built (first :: rest) config).
  split; [apply horizontalLoop_cons|].
  rewrite built_children.
  split; [now rewrite length_pairs, length_seq|].
  split; [now rewrite map_pairs|].
  split; [now rewrite map_pairs|].
  apply Forall_flat_map, Forall_forall. intros i _.
  repeat constructor.
Qed.

(** *** What each option reaches *)

(** X5. The repeat count reaches the timeline and nothing else: two calls
    that differ only in [repeat] return timelines with the same children,
    ease and playhead, each carrying its own repeat count. *)
Theorem repeat_reaches_only_the_timeline : forall first rest r1 r2 pad sp,
  exists t1 t2,
    horizontalLoop (first :: rest) (Some (mkLoopConfig r1 pad sp))
      = Returned t1 /\
    horizontalLoop (first :: rest) (Some (mkLoopConfig r2 pad sp))
      = Returned t2 /\
    tl_repeat t1 = r1 /\ tl_repeat t2 = r2 /\
    children t1 = children t2 /\
    tl_ease t1 = tl_ease t2 /\
    tl_progress t1 = tl_progress t2.
Proof.
  intros first rest r1 r2 pad sp.
  do 2 eexists.
  split; [apply horizontalLoop_cons|]. split; [apply horizontalLoop_cons|].
  destruct (built_header (first :: rest) (Some (mkLoopConfig r1 pad sp)))
    as (R1 & E1 & P1).
  destruct (built_header (first :: rest) (Some (mkLoopConfig r2 pad sp)))
    as (R2 & E2 & P2).
  rewrite R1, R2, E1, E2, P1, P2, !built_children.
  repeat split.
Qed.

(** X6. The padding reaches the re-entry segments only: two calls that
    differ only in [paddingRight] schedule the same exit segment for every
    item, and start every re-entry segment at the same time and end it at
    the same [xPercent]. *)
Theorem padding_leaves_exits_alone : forall first rest rep p1 p2 sp i,
  (i < length (first :: rest))%nat ->
  exists t1 t2 e r1 r2,
    horizontalLoop (first :: rest) (Some (mkLoopConfig rep p1 sp))
      = Returned t1 /\
    horizontalLoop (first :: rest) (Some (mkLoopConfig rep p2 sp))
      = Returned t2 /\
    exit_segment t1 i = Some e /\ exit_segment t2 i = Some e /\
    reentry_segment t1 i = Some r1 /\ reentry_segment t2 i = Some r2 /\
    position r1 = position r2 /\
    to_xPercent r1 = to_xPercent r2.
Proof.
  intros first rest rep p1 p2 sp i Hi.
  destruct (built_segments (first :: rest) (Some (mkLoopConfig rep p1 sp)) i Hi)
    as [He1 Hr1].
  destruct (built_segments (first :: rest) (Some (mkLoopConfig rep p2 sp)) i Hi)
    as [He2 Hr2].
  do 5 eexists.
  split; [apply horizontalLoop_cons|]. split; [apply horizontalLoop_cons|].
  split; [exact He1|]. split; [exact He2|].
  split; [exact Hr1|]. split; [exact Hr2|].
  split; reflexivity.
Qed.

Lemma padding_leaves_exits_alone_witness :
  exists t1 t2 e,
    horizontalLoop scenario_wide
      (Some (mkLoopConfig None (Some (Fin 30)) None)) = Returned t1 /\
    horizontalLoop scenario_wide
      (Some (mkLoopConfig None (Some (Fin 80)) None)) = Returned t2 /\
    exit_segment t1 1 = Some e /\ exit_segment t2 1 = Some e.
Proof.
  destruct (padding_leaves_exits_alone (mkElement 0 100 100 0 0 1)
              [mkElement 100 200 200 0 0 1] None (Some (Fin 30))
              (Some (Fin 80)) None 1)
    as (t1 & t2 & e & r1 & r2 & H1 & H2 & He1 & He2 & _).
  - simpl; lia.
  - exists t1, t2, e. repeat split; assumption.
Defined.

(** X7. A falsy [paddingRight] ([0], [NaN] or [undefined], as when the
    options are left out) counts as zero: the call completes exactly as it
    does with [paddingRight: 0]. *)
Theorem falsy_padding_counts_as_zero : forall items config,
  padding_is_falsy (config_of config) = true ->
  padding_of (config_of config) = 0 /\
  horizontalLoop items config =
    horizontalLoop items
      (Some (with_padding (Some (Fin 0)) (config_of config))).
Proof.
  intros items config Hfalsy.
  assert (Hpad : padding_of (config_of config) = 0).
  { unfold padding_of, or_num. unfold padding_is_falsy in Hfalsy.
    apply negb_true_iff in Hfalsy. now rewrite Hfalsy. }
  split; [exact Hpad|].
  destruct items as [|first rest]; [reflexivity|].
  rewrite !horizontalLoop_cons. f_equal.
  unfold built, totalWidth, totalWidth_of, pixelsPerSecond.
  cbn [config_of]. rewrite Hpad. reflexivity.
Qed.

Lemma falsy_padding_counts_as_zero_witness :
  horizontalLoop scenario_wide None =
  horizontalLoop scenario_wide (Some (mkLoopConfig None (Some (Fin 0)) None)).
Proof.
  apply (falsy_padding_counts_as_zero scenario_wide None). reflexivity.
Defined.

Lemma repeat_is_forwarded_witness :
  exists tl,
    setupMarqueeAnimation (fun _ => scenario_wide) no_options
      = Returned (Some tl) /\
    tl_repeat tl = Some (Fin (-1)).
Proof.
  destruct (repeat_is_forwarded (fun _ => scenario_wide) no_options
              (mkElement 0 100 100 0 0 1) [mkElement 100 200 200 0 0 1])
    as (tl & Htl & Hrep & _).
  - reflexivity.
  - exists tl. split; assumption.
Defined.

(** X12. The speed reaches durations and start times only: two calls that
    differ only in [speed] give every item's exit tween the same target, and
    its re-entry tween the same "from" and "to" values. *)
Theorem speed_leaves_targets_alone : forall first rest rep pad s1 s2 i,
  (i < length (first :: rest))%nat ->
  exists t1 t2 e1 e2 r1 r2,
    horizontalLoop (first :: rest) (Some (mkLoopConfig rep pad s1))
      = Returned t1 /\
    horizontalLoop (first :: rest) (Some (mkLoopConfig rep pad s2))
      = Returned t2 /\
    exit_segment t1 i = Some e1 /\ exit_segment t2 i = Some e2 /\
    reentry_segment t1 i = Some r1 /\ reentry_segment t2 i = Some r2 /\
    to_xPercent e1 = to_xPercent e2 /\
    from_xPercent r1 = from_xPercent r2 /\
    to_xPercent r1 = to_xPercent r2.
Proof.
  intros first rest rep pad s1 s2 i Hi.
  destruct (built_segments (first :: rest)
              (Some (mkLoopConfig rep pad s1)) i Hi) as [He1 Hr1].
  destruct (built_segments (first :: rest)
              (Some (mkLoopConfig rep pad s2)) i Hi) as [He2 Hr2].
  do 6 eexists.
  split; [apply horizontalLoop_cons|]. split; [apply horizontalLoop_cons|].
  split; [exact He1|]. split; [exact He2|].
  split; [exact Hr1|]. split; [exact Hr2|].
  repeat split.
Qed.

Lemma speed_leaves_targets_alone_witness :
  exists t1 t2 e1 e2,
    horizontalLoop scenario_wide
      (Some (mkLoopConfig None (Some (Fin 30)) (Some (Fin 1)))) = Returned t1 /\
    horizontalLoop scenario_wide
      (Some (mkLoopConfig None (Some (Fin 30)) (Some (Fin 4)))) = Returned t2 /\
    exit_segment t1 1 = Some e1 /\ exit_segment t2 1 = Some e2 /\
    to_xPercent e1 = to_xPercent e2.
Proof.
  destruct (speed_leaves_targets_alone (mkElement 0 100 100 0 0 1)
              [mkElement 100 200 200 0 0 1] None (Some (Fin 30))
              (Some (Fin 1)) (Some (Fin 4)) 1)
    as (t1 & t2 & e1 & e2 & r1 & r2 & H1 & H2 & He1 & He2 & _ & _ & Hto & _).
  - simpl; lia.
  - exists t1, t2, e1, e2. repeat split; assumption.
Defined.

(** * Rounding *)

(** ** Continuity *)




(** ** Duration conservation *)




(** ** Padding *)



